(** * server-demo: population, linking and lookup of the metadata catalogue

  A shallow embedding of [src/database/setup.py] together with the
  behaviour its test modules pin down, and the properties stated about
  them.

  Layout: Python runtime pieces ([Py]), the ORM classes ([Models]), the
  connector interface ([Connectors]), the relational store ([Database]),
  [setup.py] itself ([Linker], [Setup], [Connect]), the two routes
  exercised by the tests ([Routes]) and the test modules; the theorems
  follow. *)

From Stdlib Require Import String Ascii List ZArith Bool Lia.
Import ListNotations.
Open Scope string_scope.

(* ================================================================== *)
(** ** Python runtime *)

Module Py.

(** The exceptions that can cross [populate_database]: the [ValueError]
    of [int()], carrying the literal it rejected (the message Python
    builds around it is not modelled), and whatever a connector raises
    (opaque, with its text). *)
Inductive Exn : Type :=
| ValueError (literal : string)
| ConnectorError (msg : string).

Inductive result (A : Type) : Type :=
| Ok (a : A)
| Raise (e : Exn).
Arguments Ok {A} a.
Arguments Raise {A} e.

Definition bind {A B} (r : result A) (k : A -> result B) : result B :=
  match r with
  | Ok a => k a
  | Raise e => Raise e
  end.

Definition is_ok {A} (r : result A) : bool :=
  match r with Ok _ => true | Raise _ => false end.

(** [str.isascii()]: every character is below 128. *)
Definition isascii (s : string) : bool :=
  forallb (fun c => (nat_of_ascii c <? 128)%nat) (list_ascii_of_string s).

(** The characters [int()] skips around an ASCII literal (C's [isspace]):
    TAB, LF, VT, FF, CR and the space. *)
Definition isspace (c : ascii) : bool :=
  let n := nat_of_ascii c in
  (((9 <=? n) && (n <=? 13)) || (n =? 32))%nat.

Fixpoint lstrip (s : string) : string :=
  match s with
  | String c rest => if isspace c then lstrip rest else s
  | EmptyString => EmptyString
  end.

Fixpoint rstrip (s : string) : string :=
  match s with
  | EmptyString => EmptyString
  | String c rest =>
      match rstrip rest with
      | EmptyString => if isspace c then EmptyString else String c EmptyString
      | kept => String c kept
      end
  end.

Definition strip (s : string) : string := lstrip (rstrip s).

Definition digit_value (c : ascii) : option Z :=
  let n := nat_of_ascii c in
  if ((48 <=? n) && (n <=? 57))%nat then Some (Z.of_nat n - 48)%Z else None.

(** [sys.int_info.default_max_str_digits]: a literal with more digits is
    rejected. The sources never call [sys.set_int_max_str_digits]. *)
Definition int_max_str_digits : Z := 4300.

(** The digit part of a base-10 literal: digits, with single underscores
    allowed between two digits. [after_digit] says whether the previous
    character was a digit, [count] how many digits were read. *)
Fixpoint digits (acc count : Z) (after_digit : bool) (s : string) : option Z :=
  match s with
  | EmptyString =>
      if after_digit && (count <=? int_max_str_digits)%Z then Some acc else None
  | String c rest =>
      match digit_value c with
      | Some d => digits (acc * 10 + d)%Z (count + 1)%Z true rest
      | None =>
          if Ascii.eqb c "_"%char && after_digit
          then digits acc count false rest
          else None
      end
  end.

Definition parse_int (s : string) : option Z :=
  match strip s with
  | String "-"%char rest => option_map Z.opp (digits 0 0 false rest)
  | String "+"%char rest => digits 0 0 false rest
  | body => digits 0 0 false body
  end.

(** [int(s)] for a [str] argument, base 10, on ASCII text, where it is
    CPython's parser: blanks around, one sign, digits with single
    underscores between them, at most [int_max_str_digits] digits. For a
    text with a character outside ASCII the interpreter consults the
    Unicode database, which is not modelled: such a text is rejected here,
    and what is stated about a rejection is stated for ASCII text. *)
Definition int (s : string) : result Z :=
  match parse_int s with
  | Some n => Ok n
  | None => Raise (ValueError s)
  end.

End Py.

Import Py.

Declare Scope py_scope.
Delimit Scope py_scope with py.
Notation "x <- r ;; k" := (Py.bind r (fun x => k))
(at level 61, r at next level, right associativity) : py_scope.

(* ================================================================== *)
(** ** ORM classes *)

Module Models.

(** [database.models] is imported by [setup.py] but is not among the
    sources; the attributes are the ones [setup.py] and the tests read
    and write. *)
Record DatasetDescription : Type := {
  name : string;
  node : string;
  node_specific_identifier : string
}.

Record Publication : Type := {
  title : string;
  datasets : list DatasetDescription
}.

(** [publication.datasets = value] *)
Definition set_datasets (p : Publication) (value : list DatasetDescription) : Publication :=
  {| title := title p; datasets := value |}.

Definition DatasetDescription_eq_dec :
  forall a b : DatasetDescription, {a = b} + {a <> b}.
Proof. decide equality; apply string_dec. Defined.

End Models.

Import Models.

(* ================================================================== *)
(** ** [setup.py]: the linker *)

Module Linker.

Definition benchmark_dataset_ids : list Z := [
  181; 1111; 1596; 1457; 40981; 40983; 23517; 1489; 31; 40982; 41138; 41163; 41164; 41143;
  1169; 41167; 41147; 41158; 1487; 54; 41144; 41145; 41156; 41157; 41168; 4541; 1515; 188;
  1464; 1494; 1468; 1049; 23; 40975; 12; 1067; 40984; 40670; 3; 40978; 4134; 40701; 1475;
  4538; 4534; 41146; 41142; 40498; 40900; 40996; 40668; 4135; 1486; 41027; 1461; 1590; 41169;
  41166; 41165; 40685; 41159; 41161; 41150; 41162; 42733; 42734; 42732; 42746; 42742; 42769;
  43072
]%Z.

Definition benchmark_title : string := "AMLB: an AutoML Benchmark".
Definition higgs_title : string :=
  "Searching for exotic particles in high-energy physics with deep learning".

(** [n in benchmark_dataset_ids] *)
Definition in_benchmark (n : Z) : bool := existsb (Z.eqb n) benchmark_dataset_ids.

(** The comprehension of lines 102-106. [and] short-circuits: [int] is
    applied only to the identifier of an "openml" dataset, and the first
    identifier it rejects raises. *)
Fixpoint benchmark_datasets (datasets : list DatasetDescription)
  : result (list DatasetDescription) :=
  match datasets with
  | [] => Ok []
  | d :: rest =>
      if node d =? "openml" then
        (n <- int (node_specific_identifier d) ;;
         kept <- benchmark_datasets rest ;;
         Ok (if in_benchmark n then d :: kept else kept))%py
      else benchmark_datasets rest
  end.

(** Rule 1 of the linker in the spec's words: a benchmark dataset has
    node "openml" and an identifier that, parsed as an integer, is in the
    allow-list. *)
Definition is_benchmark_dataset (d : DatasetDescription) : bool :=
  (node d =? "openml")
  && match parse_int (node_specific_identifier d) with
     | Some n => in_benchmark n
     | None => false
     end.

(** The comprehension of line 111. *)
Definition higgs_datasets (datasets : list DatasetDescription) : list DatasetDescription :=
  filter (fun d => (node d =? "openml") && (name d =? "Higgs")) datasets.

(** One pass of a [for publication in selected: publication.datasets = v]
    loop, where [selected] holds the publications with the given title. *)
Definition assign_where (wanted : string) (value : list DatasetDescription)
    (publications : list Publication) : list Publication :=
  map (fun p => if title p =? wanted then set_datasets p value else p) publications.

Definition _link_datasets_with_publications
    (datasets : list DatasetDescription) (publications : list Publication)
  : result (list DatasetDescription * list Publication) :=
  (benchmark <- benchmark_datasets datasets ;;
   let publications := assign_where higgs_title (higgs_datasets datasets) publications in
   let publications := assign_where benchmark_title benchmark publications in
   Ok (datasets, publications))%py.

End Linker.

Import Linker.

(* ================================================================== *)
(** ** Connectors *)

Module Connectors.

(** The [connectors] package is imported by [setup.py] but is not among
    the sources: a connector is taken as given, by what its methods do when
    called. [fetch_all(limit=...)] either raises when called or returns an
    iterator, which yields some records and then either stops or raises.
    The answer depends on the limit alone: the registry does not change
    from one call to the next, and every yielded record is a fresh
    object. *)
Inductive Fetch (A : Type) : Type :=
| FetchRaises (e : Exn)
| FetchYields (items : list A) (raises : option Exn).
Arguments FetchRaises {A} e.
Arguments FetchYields {A} items raises.

(** The record a dataset connector builds from the registry's payload for
    one identifier: the fields the lookup tests read back. *)
Record DatasetMetadata : Type := {
  md_name : string;
  md_description : string;
  md_content_url : string;
  md_encoding_format : string;
  md_size : Z;
  md_catalog : string;
  md_identifier : string
}.

(** What fetching one identifier gives: the record, or the registry's
    report that it does not know the identifier, or any other failure;
    both failures carry the registry's message. *)
Inductive Single : Type :=
| Found (record : DatasetMetadata)
| Unknown (message : string)
| Failed (message : string).

Record DatasetConnector : Type := {
  node_name : string;
  fetch_all : option Z -> Fetch DatasetDescription;
  fetch_single : string -> Single
}.

Record PublicationConnector : Type := {
  fetch_all_publications : option Z -> Fetch Publication
}.

(** The connectors registered per node key, as the routes see them. *)
Definition Registry : Type := list (string * DatasetConnector).

Fixpoint connector_for (registry : Registry) (node : string) : option DatasetConnector :=
  match registry with
  | [] => None
  | (key, c) :: rest => if key =? node then Some c else connector_for rest node
  end.

End Connectors.

Import Connectors.

(* ================================================================== *)
(** ** The store *)

Module Database.

(** Modelled from the spec: the Entity Store of section 4.2 (the engine,
    the session and the tables of [database.models] are not among the
    sources). Rows carry the id the store assigned; a stored publication
    keeps the datasets it was linked to when it was inserted, and the link
    rows are read off that object graph. Nothing is ever updated or
    deleted, so the next id of a table is its row count plus one. *)
Record Store : Type := {
  dataset_rows : list (nat * DatasetDescription);
  publication_rows : list (nat * Publication)
}.

Definition empty : Store := {| dataset_rows := []; publication_rows := [] |}.

Definition link_rows (s : Store) : list (nat * DatasetDescription) :=
  flat_map (fun row => map (pair (fst row)) (datasets (snd row))) (publication_rows s).

Definition row_count (s : Store) : nat :=
  length (dataset_rows s) + length (publication_rows s) + length (link_rows s).

(** [session.scalars(select(Publication)).first() or
    session.scalars(select(DatasetDescription)).first()], as a truth value. *)
Definition has_any_data (s : Store) : bool :=
  match publication_rows s with
  | _ :: _ => true
  | [] => match dataset_rows s with _ :: _ => true | [] => false end
  end.

Definition number {A : Type} (first : nat) (records : list A) : list (nat * A) :=
  combine (seq first (length records)) records.

Definition append_rows {A : Type} (table : list (nat * A)) (records : list A) : list (nat * A) :=
  (table ++ number (S (length table)) records)%list.

(** [session.add_all(datasets); session.add_all(publications);
    session.commit()], for a batch in which the datasets a publication
    holds are datasets of the batch, as after the linker when the
    publications were fetched without datasets. A publication that
    arrives with datasets of its own would have them inserted too, by the
    session's cascade, which is not shown; statements about what is stored
    are made for publications fetched without datasets. *)
Definition insert_all (new_datasets : list DatasetDescription)
    (new_publications : list Publication) (s : Store) : Store :=
  {| dataset_rows := append_rows (dataset_rows s) new_datasets;
     publication_rows := append_rows (publication_rows s) new_publications |}.

(** Exact match on the natural key, first row in id order. *)
Definition find_dataset (s : Store) (node_key identifier : string)
  : option (nat * DatasetDescription) :=
  find (fun row => (node (snd row) =? node_key)
                   && (node_specific_identifier (snd row) =? identifier))
       (dataset_rows s).

(** The stores that inserts can build, starting from the empty one. *)
Inductive reachable : Store -> Prop :=
| reachable_empty : reachable empty
| reachable_insert : forall s ds ps, reachable s -> reachable (insert_all ds ps s).

End Database.

Import Database.

(* ================================================================== *)
(** ** [setup.py]: population *)

Module Setup.

(** A called [fetch_all]: the iterator it returned. *)
Definition Iterator (A : Type) : Type := (list A * option Exn)%type.

(** [[c.fetch_all(limit=...) for c in connectors]]: the calls are made in
    list order, before anything is iterated; the first one to raise stops
    the comprehension. *)
Fixpoint call_all {A : Type} (fetches : list (Fetch A)) : result (list (Iterator A)) :=
  match fetches with
  | [] => Ok []
  | FetchRaises e :: _ => Raise e
  | FetchYields items raises :: rest =>
      (its <- call_all rest ;; Ok ((items, raises) :: its))%py
  end.

(** [list] applied to the [itertools.chain] of the iterators: each is drained in turn;
    one that raises ends the materialisation with its exception. *)
Fixpoint list_chain {A : Type} (iterators : list (Iterator A)) : result (list A) :=
  match iterators with
  | [] => Ok []
  | (items, Some e) :: _ => Raise e
  | (items, None) :: rest =>
      (more <- list_chain rest ;; Ok (items ++ more)%list)%py
  end.

(** Lines 57-68: [None] gives the empty iterator [iter(())]. *)
Definition iterable {C A : Type} (fetch : C -> option Z -> Fetch A)
    (connectors : option (list C)) (limit : option Z) : result (list (Iterator A)) :=
  match connectors with
  | None => Ok []
  | Some cs => call_all (map (fun c => fetch c limit) cs)
  end.

(** Lines 57-75: everything [populate_database] does before it opens the
    session. None of it touches the store. *)
Definition fetch_and_link
    (dataset_connectors : option (list DatasetConnector))
    (publications_connectors : option (list PublicationConnector))
    (limit_datasets limit_publications : option Z)
  : result (list DatasetDescription * list Publication) :=
  (datasets_iterable <- iterable fetch_all dataset_connectors limit_datasets ;;
   publications_iterable <-
     iterable fetch_all_publications publications_connectors limit_publications ;;
   datasets <- list_chain datasets_iterable ;;
   publications <- list_chain publications_iterable ;;
   _link_datasets_with_publications datasets publications)%py.

(** [populate_database]: how the call ends, and the store it leaves. *)
Definition populate_database
    (engine : Store)
    (only_if_empty : bool)
    (dataset_connectors : option (list DatasetConnector))
    (publications_connectors : option (list PublicationConnector))
    (limit_datasets limit_publications : option Z)
  : result unit * Store :=
  match fetch_and_link dataset_connectors publications_connectors
                       limit_datasets limit_publications with
  | Raise e => (Raise e, engine)
  | Ok (datasets, publications) =>
      let data_exists := has_any_data engine in
      if only_if_empty && data_exists
      then (Ok tt, engine)
      else (Ok tt, insert_all datasets publications engine)
  end.

(** A fetch that fails: the call raises, or the iteration does. *)
Definition fetch_fails {A : Type} (f : Fetch A) : Prop :=
  match f with
  | FetchRaises _ => True
  | FetchYields _ (Some _) => True
  | FetchYields _ None => False
  end.

(** What a fetch yields when it does not fail, and the batch the
    connectors of one kind yield together, in connector order. *)
Definition yielded {A : Type} (f : Fetch A) : list A :=
  match f with
  | FetchYields items _ => items
  | FetchRaises _ => []
  end.

Definition fetched {C A : Type} (fetch : C -> option Z -> Fetch A)
    (connectors : option (list C)) (limit : option Z) : list A :=
  match connectors with
  | None => []
  | Some cs => flat_map (fun c => yielded (fetch c limit)) cs
  end.

Definition some_fetch_fails {C A : Type} (fetch : C -> option Z -> Fetch A)
    (connectors : option (list C)) (limit : option Z) : Prop :=
  exists cs c, connectors = Some cs /\ In c cs /\ fetch_fails (fetch c limit).

End Setup.

Import Setup.

(* ================================================================== *)
(** ** [setup.py]: connecting *)

Module Connect.

(** What can end [connect_to_database] early: the [ValueError] of the
    tuple unpacking on line 32, or anything SQLAlchemy or the server
    raises (opaque, with its text). *)
Inductive Error : Type :=
| NotEnoughValues
| BackendError (text : string).

Inductive outcome (A : Type) : Type :=
| Returned (a : A)
| Raised (e : Error).
Arguments Returned {A} a.
Arguments Raised {A} e.

(** [s.rsplit(sep, 1)] for a one-character separator: the text before the
    last [sep] and the text after it, or [None] when [sep] does not occur
    (the list of one element, which [server, database = ...] cannot
    unpack). *)
Fixpoint rsplit1 (sep : ascii) (s : string) : option (string * string) :=
  match s with
  | EmptyString => None
  | String c rest =>
      match rsplit1 sep rest with
      | Some (before, after) => Some (String c before, after)
      | None => if Ascii.eqb c sep then Some (EmptyString, rest) else None
      end
  end.

(** What is sent over the connection, in the order of lines 36-43. *)
Inductive Event : Type :=
| Execute (statement : string)
| CreateAll
| Commit.

(** A row of a result; [SHOW TABLES] gives one per table. *)
Definition Row : Type := string.

(** SQLAlchemy and the database server are not among the sources: they are
    taken as given. [create_engine] may refuse the URL, [connect] may fail
    on the server as it is, and every event is answered by the server in
    its current state, with rows or an exception, and moves it to a new
    state. *)
Record Backend (Engine Server : Type) : Type := {
  create_engine : string -> outcome Engine;
  connect : Engine -> Server -> option Error;
  perform : Event -> Server -> outcome (list Row) * Server
}.
Arguments create_engine {Engine Server} _ _.
Arguments connect {Engine Server} _ _ _.
Arguments perform {Engine Server} _ _ _.

Section Script.

Context {Engine Server : Type} (backend : Backend Engine Server).

(** The body of the [with] block: it runs on a server state and a log of
    the events sent so far, and stops at the first exception. *)
Definition Script (A : Type) : Type :=
  Server -> list Event -> outcome A * Server * list Event.

Definition ret {A : Type} (a : A) : Script A :=
  fun s log => (Returned a, s, log).

Definition and_then {A B : Type} (m : Script A) (k : A -> Script B) : Script B :=
  fun s log =>
    match m s log with
    | (Returned a, s', log') => k a s' log'
    | (Raised e, s', log') => (Raised e, s', log')
    end.

Definition issue (ev : Event) : Script (list Row) :=
  fun s log =>
    let (answer, s') := perform backend ev s in (answer, s', (log ++ [ev])%list).

(** [if condition: m] *)
Definition when (condition : bool) (m : Script (list Row)) : Script unit :=
  if condition then and_then m (fun _ => ret tt) else ret tt.

Definition drop_database (database : string) : Event :=
  Execute ("DROP DATABASE IF EXISTS " ++ database).
Definition create_database (database : string) : Event :=
  Execute ("CREATE DATABASE IF NOT EXISTS " ++ database).
Definition use_database (database : string) : Event :=
  Execute ("USE " ++ database).
Definition show_tables : Event := Execute "SHOW TABLES".

(** Lines 35-43. [not rows] holds for the empty list. *)
Definition with_connection (database : string)
    (create_if_not_exists delete_first : bool) : Script unit :=
  and_then (when delete_first (issue (drop_database database))) (fun _ =>
  and_then (when (delete_first || create_if_not_exists)
                 (issue (create_database database))) (fun _ =>
  and_then (issue (use_database database)) (fun _ =>
  and_then (issue show_tables) (fun rows =>
  and_then (when (match rows with [] => true | _ => false end) (issue CreateAll)) (fun _ =>
  and_then (issue Commit) (fun _ =>
  ret tt)))))).

(** [connect_to_database]: how the call ends, the server it leaves and
    the events it sent. Closing the connection when the [with] block is
    left is not shown. *)
Definition connect_to_database (url : string)
    (create_if_not_exists delete_first : bool) (s : Server)
  : outcome Engine * Server * list Event :=
  match rsplit1 "/" url with
  | None => (Raised NotEnoughValues, s, [])
  | Some (server, database) =>
      match create_engine backend server with
      | Raised e => (Raised e, s, [])
      | Returned engine =>
          match connect backend engine s with
          | Some e => (Raised e, s, [])
          | None =>
              match with_connection database create_if_not_exists delete_first s [] with
              | (Returned _, s', log) => (Returned engine, s', log)
              | (Raised e, s', log) => (Raised e, s', log)
              end
          end
      end
  end.

(** The server after a list of events, whatever it answered. *)
Definition state_after (log : list Event) (s : Server) : Server :=
  fold_left (fun st ev => snd (perform backend ev st)) log s.

(** The events of lines 36-40, before [SHOW TABLES], by the two flags. *)
Definition opening (database : string) (create_if_not_exists delete_first : bool)
  : list Event :=
  ((if delete_first then [drop_database database] else [])
   ++ (if delete_first || create_if_not_exists then [create_database database] else [])
   ++ [use_database database])%list.

End Script.

(** The default of the [url] parameter. *)
Definition default_url : string := "mysql://root:ok@127.0.0.1:3307/aiod".

(** A letter, a digit or an underscore: the characters of a database name
    that needs no quoting. The name is pasted into the statements as it
    is, so any other character reaches the server as part of the SQL. *)
Definition is_word (c : ascii) : bool :=
  let n := nat_of_ascii c in
  (((48 <=? n) && (n <=? 57)) || ((65 <=? n) && (n <=? 90))
   || ((97 <=? n) && (n <=? 122)) || (n =? 95))%nat.

Definition plain_name (database : string) : bool :=
  forallb is_word (list_ascii_of_string database).

(** A small server to run the function on: the databases it holds, each
    with its tables, and the database in use. It knows the four statements
    of [connect_to_database] for the database named [aiod] and answers any
    other statement with an error. *)
Record Toy : Type := {
  toy_tables : option (list Row);
  toy_in_use : bool
}.

Definition toy_perform (ev : Event) (s : Toy) : outcome (list Row) * Toy :=
  match ev with
  | Execute statement =>
      if statement =? "DROP DATABASE IF EXISTS aiod" then
        (Returned [], {| toy_tables := None; toy_in_use := false |})
      else if statement =? "CREATE DATABASE IF NOT EXISTS aiod" then
        (Returned [], {| toy_tables := Some (match toy_tables s with
                                             | Some tables => tables
                                             | None => []
                                             end);
                         toy_in_use := toy_in_use s |})
      else if statement =? "USE aiod" then
        match toy_tables s with
        | Some _ => (Returned [], {| toy_tables := toy_tables s; toy_in_use := true |})
        | None => (Raised (BackendError "Unknown database 'aiod'"), s)
        end
      else if statement =? "SHOW TABLES" then
        match toy_tables s, toy_in_use s with
        | Some tables, true => (Returned tables, s)
        | _, _ => (Raised (BackendError "No database selected"), s)
        end
      else (Raised (BackendError "You have an error in your SQL syntax"), s)
  | CreateAll =>
      match toy_tables s, toy_in_use s with
      | Some [], true =>
          (Returned [], {| toy_tables := Some ["dataset"; "publication"; "link"];
                           toy_in_use := true |})
      | Some _, true => (Returned [], s)
      | _, _ => (Raised (BackendError "No database selected"), s)
      end
  | Commit => (Returned [], s)
  end.

Definition toy : Backend string Toy :=
  {| create_engine := fun server => Returned server;
     connect := fun _ _ => None;
     perform := toy_perform |}.

End Connect.

(* ================================================================== *)
(** ** The two routes the tests call *)

Module Routes.

#[warnings="-register-all"]
Inductive JSON : Type :=
| JInt (n : Z)
| JStr (s : string)
| JObj (members : list (string * JSON)).

(** [j[key]] *)
Definition member (key : string) (j : JSON) : option JSON :=
  match j with
  | JObj members => option_map snd (find (fun kv => fst kv =? key) members)
  | _ => None
  end.

(** [j[outer][inner]] *)
Definition member2 (outer inner : string) (j : JSON) : option JSON :=
  match member outer j with
  | Some o => member inner o
  | None => None
  end.

Definition keys (j : JSON) : list string :=
  match j with
  | JObj members => map fst members
  | _ => []
  end.

(** A stored dataset row as the list route shows it. *)
Definition to_dict (row : nat * DatasetDescription) : JSON :=
  JObj [ ("id", JInt (Z.of_nat (fst row)));
         ("name", JStr (name (snd row)));
         ("node", JStr (node (snd row)));
         ("node_specific_identifier", JStr (node_specific_identifier (snd row))) ].

(** Modelled from the spec: the list endpoint of sections 4.4 and 6 (the
    route handler is not among the sources): every stored Dataset
    Description, in id order, each exposing id, name, node and
    node_specific_identifier. *)
Definition list_datasets (engine : Store) : list JSON :=
  map to_dict (dataset_rows engine).

(** A fetched record as the lookup route shows it. *)
Definition metadata_json (m : DatasetMetadata) : JSON :=
  JObj [ ("name", JStr (md_name m));
         ("description", JStr (md_description m));
         ("distribution", JObj [ ("contentUrl", JStr (md_content_url m));
                                 ("encodingFormat", JStr (md_encoding_format m)) ]);
         ("size", JObj [ ("value", JInt (md_size m)) ]);
         ("includedInDataCatalog", JObj [ ("name", JStr (md_catalog m)) ]);
         ("identifier", JStr (md_identifier m)) ].

(** How a lookup ends: the record, or one error of section 7's taxonomy. *)
Inductive Outcome : Type :=
| Success (body : JSON)
| NotFoundError (detail : string)
| UpstreamError (detail : string)
| UnknownNodeError (node_key : string).

(** The status the tests read; the two other errors are mapped by the API
    layer, which the sources do not show. *)
Definition status_code (o : Outcome) : option nat :=
  match o with
  | Success _ => Some 200
  | NotFoundError _ => Some 404
  | _ => None
  end.

(** [response.json()["detail"]] *)
Definition detail_of (o : Outcome) : option string :=
  match o with
  | NotFoundError detail | UpstreamError detail => Some detail
  | _ => None
  end.

Definition body_of (o : Outcome) : option JSON :=
  match o with
  | Success body => Some body
  | _ => None
  end.

(** A call of some connector's [fetch_single]: node key and identifier. *)
Definition Call : Type := (string * string)%type.

(** A lookup route: from the store, the registered connectors and the
    requested pair to the outcome and the connector calls it made. *)
Definition Lookup : Type := Store -> Registry -> string -> string -> Outcome * list Call.


Definition fetch_error (c : DatasetConnector) (message : string) : string :=
  "Error while fetching data from " ++ node_name c ++ ": '" ++ message ++ "'".

(** The part of a lookup that goes to the node's connector. *)
Definition fetch_from_node (registry : Registry) (node_key identifier : string)
  : Outcome * list Call :=
  match connector_for registry node_key with
  | None => (UnknownNodeError node_key, [])
  | Some c =>
      match fetch_single c identifier with
      | Found record => (Success (metadata_json record), [(node_key, identifier)])
      | Unknown message => (NotFoundError (fetch_error c message), [(node_key, identifier)])
      | Failed message => (UpstreamError (fetch_error c message), [(node_key, identifier)])
      end
  end.

(** Modelled from the spec: the on-demand single lookup of section 4.4,
    steps 1 to 3 (the route handler is not among the sources): a stored
    pair is returned from the store with no external call; any other pair
    is fetched from the connector registered for the node, with
    [UnknownNodeError] when there is none, and the connector's errors are
    propagated with the message of section 6. *)
Definition get_dataset : Lookup :=
  fun engine registry node_key identifier =>
    match find_dataset engine node_key identifier with
    | Some row => (Success (to_dict row), [])
    | None => fetch_from_node registry node_key identifier
    end.

(** The first testable property of section 8, as stated, for a lookup
    route: a pair the store holds is answered with the stored row and
    without a connector call. *)
Definition answers_stored_pairs_from_store (client : Lookup) : Prop :=
  forall engine registry node_key identifier row,
    find_dataset engine node_key identifier = Some row ->
    client engine registry node_key identifier = (Success (to_dict row), []).


(** [needle in haystack] *)
Fixpoint contains (needle haystack : string) : bool :=
  prefix needle haystack
  || match haystack with
     | EmptyString => false
     | String _ rest => contains needle rest
     end.

End Routes.

Import Routes.

(* ================================================================== *)
(** ** The test modules *)

(** [tests/test_get_dataset_openml.py], with the route under test as a
    parameter. *)
Module TestGetDatasetOpenml.

Definition dataset_description : DatasetDescription :=
  {| name := "anneal"; node := "openml"; node_specific_identifier := "1" |}.

(** The engine fixture after [session.add(...); session.commit()]. *)
Definition engine : Store := insert_all [dataset_description] [] empty.

(** The [data_set_description] of [data_1.json]; the resource file is not
    among the sources, so the tests are read for every content of it. *)
Record ExpectedInfo : Type := {
  info_name : string;
  info_description : string;
  info_url : string;
  info_format : string
}.

(** The OpenML connector in front of a registry that answers [answer]. *)
Definition openml (answer : string -> Single) : DatasetConnector :=
  {| node_name := "OpenML";
     fetch_all := fun _ => FetchYields [] None;
     fetch_single := answer |}.

(** A request no response is registered for. *)
Definition refused : Single := Failed "Connection refused by Responses".

(** [_mock_normal_responses]: the description and the qualities of the
    dataset are served; the connector maps them to its record. *)
Definition _mock_normal_responses (expected_info : ExpectedInfo) (identifier : string) : Single :=
  if identifier =? node_specific_identifier dataset_description then
    Found {| md_name := info_name expected_info;
             md_description := info_description expected_info;
             md_content_url := info_url expected_info;
             md_encoding_format := info_format expected_info;
             md_size := 898;
             md_catalog := "OpenML";
             md_identifier := identifier |}
  else refused.

(** [RequestsMock] fails the test unless every registered response was
    requested: the connector was called for the dataset. *)
Definition all_requests_fired (calls : list Call) : Prop :=
  In ("openml", node_specific_identifier dataset_description) calls.

Definition test_happy_path (client : Lookup) : Prop :=
  forall expected_info : ExpectedInfo,
    let answer := client engine [("openml", openml (_mock_normal_responses expected_info))]
                         "openml" "1" in
    let response := fst answer in
    all_requests_fired (snd answer) /\
    status_code response = Some 200 /\
    exists response_json, body_of response = Some response_json /\
      member "name" response_json = Some (JStr (info_name expected_info)) /\
      member "description" response_json = Some (JStr (info_description expected_info)) /\
      member2 "distribution" "contentUrl" response_json = Some (JStr (info_url expected_info)) /\
      member2 "distribution" "encodingFormat" response_json
        = Some (JStr (info_format expected_info)) /\
      member2 "size" "value" response_json = Some (JInt 898) /\
      member2 "includedInDataCatalog" "name" response_json = Some (JStr "OpenML") /\
      member "identifier" response_json = Some (JStr "1").

(** No response is registered in this test: it is read with a registry
    that answers no request. *)
Definition test_dataset_not_found_in_local_db (client : Lookup) : Prop :=
  let response := fst (client engine [("openml", openml (fun _ => refused))] "openml" "2") in
  status_code response = Some 404 /\
  detail_of response = Some "Dataset '2' of 'openml' not found in the database.".

(** The registry answers 412 with the message "Unknown dataset". *)
Definition unknown_dataset (identifier : string) : Single :=
  if identifier =? node_specific_identifier dataset_description
  then Unknown "Unknown dataset"
  else refused.

Definition test_dataset_not_found_in_openml (client : Lookup) : Prop :=
  let answer := client engine [("openml", openml unknown_dataset)] "openml" "1" in
  let response := fst answer in
  all_requests_fired (snd answer) /\
  status_code response = Some 404 /\
  detail_of response = Some "Error while fetching data from OpenML: 'Unknown dataset'".

End TestGetDatasetOpenml.

(** [tests/test_get_datasets.py], with the route under test as a parameter. *)
Module TestGetDatasets.

Definition datasets : list DatasetDescription :=
  [ {| name := "dset1"; node := "openml"; node_specific_identifier := "1" |};
    {| name := "dset1"; node := "other_node"; node_specific_identifier := "1" |};
    {| name := "dset2"; node := "other_node"; node_specific_identifier := "2" |} ].

Definition engine : Store := insert_all datasets [] empty.

(** [{ds[key] for ds in response_json} == expected], both as lists. *)
Definition same_set {A : Type} (l expected : list A) : Prop :=
  forall x, In x l <-> In x expected.

Definition column (key : string) (response_json : list JSON) : list (option JSON) :=
  map (member key) response_json.

Definition test_happy_path (client : Store -> list JSON) : Prop :=
  let response_json := client engine in
  length response_json = 3 /\
  same_set (column "name" response_json) [Some (JStr "dset1"); Some (JStr "dset2")] /\
  same_set (column "node" response_json) [Some (JStr "openml"); Some (JStr "other_node")] /\
  same_set (column "node_specific_identifier" response_json)
           [Some (JStr "1"); Some (JStr "2")] /\
  same_set (column "id" response_json) [Some (JInt 1); Some (JInt 2); Some (JInt 3)] /\
  forall ds, In ds response_json -> length (keys ds) = 4.

End TestGetDatasets.

(* ================================================================== *)
(** * Properties *)

(** ** Python's [int] on the identifiers in play *)

Example int_181 : int "181" = Ok 181%Z.
Proof. reflexivity. Qed.

Example int_padded : int " +1_000 " = Ok 1000%Z.
Proof. reflexivity. Qed.

Example int_rejects_name : is_ok (int "anneal") = false.
Proof. reflexivity. Qed.

Example int_rejects_double_underscore : is_ok (int "1__0") = false.
Proof. reflexivity. Qed.

Lemma int_Ok_parse : forall s n, int s = Ok n <-> parse_int s = Some n.
Proof.
  intros s n. unfold int. destruct (parse_int s); split; intros H;
    try discriminate; inversion H; reflexivity.
Qed.

Lemma allow_list_has_181 : in_benchmark 181 = true.
Proof. reflexivity. Qed.

(** ** The linker *)

Section LinkerFacts.

Local Open Scope list_scope.

(** When the benchmark comprehension returns, it is the filter of the
    batch by rule 1. *)
Lemma benchmark_datasets_filter : forall ds kept,
  benchmark_datasets ds = Ok kept -> kept = filter is_benchmark_dataset ds.
Proof.
  induction ds as [|d rest IH]; simpl; intros kept H.
  - now inversion H.
  - unfold is_benchmark_dataset at 1.
    destruct (node d =? "openml"); simpl.
    + unfold int in H. destruct (parse_int (node_specific_identifier d)) as [n|]; simpl in H.
      * destruct (benchmark_datasets rest) as [k|e]; simpl in H; [|discriminate].
        inversion H; subst. rewrite (IH k eq_refl).
        now destruct (in_benchmark n).
      * discriminate.
    + now apply IH.
Qed.

(** It returns exactly when [int] accepts the identifier of every
    "openml" dataset of the batch. *)
Lemma benchmark_datasets_total : forall ds,
  (forall d, In d ds -> node d = "openml" ->
             exists n, int (node_specific_identifier d) = Ok n) ->
  exists kept, benchmark_datasets ds = Ok kept.
Proof.
  induction ds as [|d rest IH]; simpl; intros H.
  - now eexists.
  - destruct IH as [k Hk]; [intros; apply H; auto|].
    destruct (node d =? "openml") eqn:E.
    + apply String.eqb_eq in E. destruct (H d (or_introl eq_refl) E) as [n Hn].
      rewrite Hn, Hk. simpl. now eexists.
    + now exists k.
Qed.

Lemma benchmark_datasets_raises : forall ds d,
  In d ds -> node d = "openml" -> parse_int (node_specific_identifier d) = None ->
  exists msg, benchmark_datasets ds = Raise (ValueError msg).
Proof.
  induction ds as [|x rest IH]; simpl; intros d Hin Hnode Hparse; [contradiction|].
  destruct Hin as [->|Hin].
  - rewrite Hnode. simpl. unfold int. rewrite Hparse. simpl. now eexists.
  - destruct (IH d Hin Hnode Hparse) as [msg He].
    destruct (node x =? "openml"); [|now exists msg].
    unfold int. destruct (parse_int (node_specific_identifier x)); simpl; [|now eexists].
    rewrite He. simpl. now eexists.
Qed.

Lemma assign_where_titles : forall wanted value ps,
  map title (assign_where wanted value ps) = map title ps.
Proof.
  intros wanted value ps. unfold assign_where. rewrite map_map.
  apply map_ext. intros p. now destruct (title p =? wanted).
Qed.

(** A publication that comes out of an assignment pass with the wanted
    title holds the assigned list. *)
Lemma assign_where_hit : forall wanted value ps p,
  In p (assign_where wanted value ps) -> title p = wanted -> datasets p = value.
Proof.
  intros wanted value ps p Hin Ht. unfold assign_where in Hin.
  apply in_map_iff in Hin. destruct Hin as [q [Hq _]].
  destruct (title q =? wanted) eqn:E.
  - now subst p.
  - subst p. apply String.eqb_neq in E. contradiction.
Qed.

(** One with another title went through the pass untouched. *)
Lemma assign_where_miss : forall wanted value ps p,
  In p (assign_where wanted value ps) -> title p <> wanted -> In p ps.
Proof.
  intros wanted value ps p Hin Ht. unfold assign_where in Hin.
  apply in_map_iff in Hin. destruct Hin as [q [Hq Hqin]].
  destruct (title q =? wanted) eqn:E.
  - apply String.eqb_eq in E. subst p. simpl in Ht. contradiction.
  - now subst p.
Qed.

Lemma titles_differ : higgs_title <> benchmark_title.
Proof. discriminate. Qed.

(** What the linker returns, when it returns. *)
Lemma link_returns : forall ds ps ds' ps',
  _link_datasets_with_publications ds ps = Ok (ds', ps') ->
  ds' = ds /\
  ps' = assign_where benchmark_title (filter is_benchmark_dataset ds)
          (assign_where higgs_title (higgs_datasets ds) ps).
Proof.
  intros ds ps ds' ps' H. unfold _link_datasets_with_publications in H.
  destruct (benchmark_datasets ds) as [kept|e] eqn:E; simpl in H; [|discriminate].
  inversion H; subst. now rewrite (benchmark_datasets_filter _ _ E).
Qed.

End LinkerFacts.

(** C7: after the linker has run, every publication titled exactly
    "AMLB: an AutoML Benchmark" has as its datasets the whole list of
    benchmark datasets of the batch (node "openml", identifier parsed as an
    integer in the allow-list); in particular a fetched "openml" dataset
    with identifier "181" is among them. The batch itself and the titles
    come back unchanged. *)
Theorem benchmark_publication_gets_benchmark_datasets :
  forall ds ps ds' ps',
    _link_datasets_with_publications ds ps = Ok (ds', ps') ->
    ds' = ds /\
    map title ps' = map title ps /\
    forall p, In p ps' -> title p = "AMLB: an AutoML Benchmark" ->
      datasets p = filter is_benchmark_dataset ds /\
      forall d, In d ds -> node d = "openml" -> node_specific_identifier d = "181" ->
                In d (datasets p).
Proof.
  intros ds ps ds' ps' H. apply link_returns in H. destruct H as [-> ->].
  split; [reflexivity|]. split.
  - now rewrite !assign_where_titles.
  - intros p Hin Ht.
    assert (Hd : datasets p = filter is_benchmark_dataset ds)
      by (eapply assign_where_hit; eauto).
    split; [exact Hd|].
    intros d Hds Hnode Hid. rewrite Hd. apply filter_In. split; [exact Hds|].
    unfold is_benchmark_dataset. rewrite Hnode, Hid. reflexivity.
Qed.

(** The linking scenario of the spec, run. *)
Lemma benchmark_publication_gets_benchmark_datasets_witness :
  let d181 := {| name := "kr-vs-kp"; node := "openml"; node_specific_identifier := "181" |} in
  let other := {| name := "kr-vs-kp"; node := "other_node"; node_specific_identifier := "181" |} in
  let amlb := {| title := "AMLB: an AutoML Benchmark"; datasets := [other] |} in
  _link_datasets_with_publications [other; d181] [amlb]
    = Ok ([other; d181], [set_datasets amlb [d181]])
  /\ In d181 (datasets (set_datasets amlb [d181])).
Proof.
  intros d181 other amlb.
  assert (E : _link_datasets_with_publications [other; d181] [amlb]
              = Ok ([other; d181], [set_datasets amlb [d181]])) by reflexivity.
  split; [exact E|].
  destruct (benchmark_publication_gets_benchmark_datasets _ _ _ _ E) as [_ [_ H]].
  apply (H (set_datasets amlb [d181])); simpl; auto.
Defined.

(** C8: after the linker has run, every publication titled exactly
    "Searching for exotic particles in high-energy physics with deep
    learning" has as its datasets exactly the fetched datasets with node
    "openml" and name "Higgs"; a dataset named "Higgs" of any other node is
    not among them. *)
Theorem higgs_publication_gets_openml_higgs :
  forall ds ps ds' ps',
    _link_datasets_with_publications ds ps = Ok (ds', ps') ->
    forall p, In p ps' ->
      title p = "Searching for exotic particles in high-energy physics with deep learning" ->
      datasets p = filter (fun d => (node d =? "openml") && (name d =? "Higgs")) ds /\
      (forall d, In d (datasets p) <-> In d ds /\ node d = "openml" /\ name d = "Higgs") /\
      (forall d, name d = "Higgs" -> node d <> "openml" -> ~ In d (datasets p)).
Proof.
  intros ds ps ds' ps' H p Hin Ht. apply link_returns in H. destruct H as [_ ->].
  assert (Hd : datasets p = higgs_datasets ds).
  { apply assign_where_miss in Hin.
    - eapply assign_where_hit; eauto.
    - fold higgs_title in Ht. rewrite Ht. exact titles_differ. }
  assert (Hiff : forall d, In d (datasets p) <->
                           In d ds /\ node d = "openml" /\ name d = "Higgs").
  { intros d. rewrite Hd. unfold higgs_datasets. rewrite filter_In, andb_true_iff.
    now rewrite !String.eqb_eq. }
  split; [exact Hd|]. split; [exact Hiff|].
  intros d _ Hnode Hind. apply Hiff in Hind. tauto.
Qed.

Lemma higgs_publication_gets_openml_higgs_witness :
  let higgs := {| name := "Higgs"; node := "openml"; node_specific_identifier := "23512" |} in
  let elsewhere := {| name := "Higgs"; node := "other_node"; node_specific_identifier := "23512" |} in
  let paper := {| title := higgs_title; datasets := [] |} in
  _link_datasets_with_publications [elsewhere; higgs] [paper]
    = Ok ([elsewhere; higgs], [set_datasets paper [higgs]])
  /\ ~ In elsewhere (datasets (set_datasets paper [higgs])).
Proof.
  intros higgs elsewhere paper.
  assert (E : _link_datasets_with_publications [elsewhere; higgs] [paper]
              = Ok ([elsewhere; higgs], [set_datasets paper [higgs]])) by reflexivity.
  split; [exact E|].
  destruct (higgs_publication_gets_openml_higgs _ _ _ _ E (set_datasets paper [higgs]))
    as [_ [_ H]]; [simpl; auto | reflexivity |].
  apply H; [reflexivity | discriminate].
Defined.

(** ** Population *)

Section PopulationFacts.

Local Open Scope list_scope.

Context {C A : Type} (fetch : C -> option Z -> Fetch A).

Lemma call_all_chain_fails : forall (fs : list (Fetch A)) f,
  In f fs -> fetch_fails f ->
  (exists e, call_all fs = Raise e) \/
  (exists its e, call_all fs = Ok its /\ list_chain its = Raise e).
Proof.
  induction fs as [|x rest IH]; intros f Hin Hf; [contradiction|].
  destruct Hin as [->|Hin].
  - destruct f as [e|items [e|]]; simpl in *; try contradiction.
    + left. now eexists.
    + destruct (call_all rest) as [its|e']; simpl.
      * right. exists ((items, Some e) :: its), e. now split.
      * left. now eexists.
  - destruct (IH f Hin Hf) as [[e He]|[its [e [Hits He]]]].
    + left. destruct x as [e'|items r]; simpl; [now eexists|].
      rewrite He. simpl. now eexists.
    + destruct x as [e'|items [e'|]]; simpl.
      * left. now eexists.
      * right. rewrite Hits. simpl. exists ((items, Some e') :: its), e'. now split.
      * right. rewrite Hits. simpl. exists ((items, None) :: its), e.
        split; [reflexivity|]. simpl. now rewrite He.
Qed.

Lemma call_all_chain_succeeds : forall fs : list (Fetch A),
  (forall f, In f fs -> ~ fetch_fails f) ->
  exists its, call_all fs = Ok its /\ list_chain its = Ok (flat_map yielded fs).
Proof.
  induction fs as [|x rest IH]; intros H.
  - exists []. now split.
  - destruct IH as [its [Hits Hch]]; [intros; apply H; now right|].
    destruct x as [e|items [e|]].
    + exfalso. apply (H (FetchRaises e)); simpl; auto.
    + exfalso. apply (H (FetchYields items (Some e))); simpl; auto.
    + exists ((items, None) :: its). simpl. rewrite Hits, Hch. now split.
Qed.

(** A failing fetch makes the materialisation raise, or stops the
    comprehension before it. *)
Lemma failing_fetch_stops : forall connectors limit,
  some_fetch_fails fetch connectors limit ->
  (exists e, iterable fetch connectors limit = Raise e) \/
  (exists its e, iterable fetch connectors limit = Ok its /\ list_chain its = Raise e).
Proof.
  intros connectors limit [cs [c [-> [Hin Hf]]]]. simpl.
  apply call_all_chain_fails with (f := fetch c limit); [|exact Hf].
  apply in_map_iff. now exists c.
Qed.

Lemma sound_fetches_materialise : forall connectors limit,
  ~ some_fetch_fails fetch connectors limit ->
  exists its, iterable fetch connectors limit = Ok its
              /\ list_chain its = Ok (fetched fetch connectors limit).
Proof.
  intros [cs|] limit H; simpl.
  - destruct (call_all_chain_succeeds (map (fun c => fetch c limit) cs)) as [its [H1 H2]].
    + intros f Hin Hf. apply in_map_iff in Hin. destruct Hin as [c [<- Hc]].
      apply H. now exists cs, c.
    + exists its. split; [exact H1|]. rewrite H2. f_equal.
      clear. induction cs; simpl; [reflexivity|]. now rewrite IHcs.
  - exists []. now split.
Qed.

End PopulationFacts.

Section PopulateDatabase.

Local Open Scope list_scope.

Variables (dataset_connectors : option (list DatasetConnector))
          (publications_connectors : option (list PublicationConnector))
          (limit_datasets limit_publications : option Z).

#[local] Abbreviation pipeline :=
  (fetch_and_link dataset_connectors publications_connectors
                  limit_datasets limit_publications).
#[local] Abbreviation populate engine only_if_empty :=
  (populate_database engine only_if_empty dataset_connectors publications_connectors
                     limit_datasets limit_publications).

(** A call that raises leaves the store as it found it. *)
Lemma populate_raise_keeps_store : forall engine only_if_empty e,
  pipeline = Raise e -> populate engine only_if_empty = (Raise e, engine).
Proof.
  intros engine only_if_empty e H. unfold populate_database. now rewrite H.
Qed.

Lemma pipeline_fails_on_failing_fetch :
  some_fetch_fails fetch_all dataset_connectors limit_datasets \/
  some_fetch_fails fetch_all_publications publications_connectors limit_publications ->
  exists e, pipeline = Raise e.
Proof.
  intros H. unfold fetch_and_link.
  destruct (iterable fetch_all dataset_connectors limit_datasets) as [dits|e] eqn:ED;
    simpl; [|now eexists].
  destruct (iterable fetch_all_publications publications_connectors limit_publications)
    as [pits|e] eqn:EP; simpl; [|now eexists].
  destruct (list_chain dits) as [ds|e] eqn:EDs; simpl; [|now eexists].
  destruct (list_chain pits) as [ps|e] eqn:EPs; simpl; [|now eexists].
  exfalso. destruct H as [H|H]; apply failing_fetch_stops in H;
    destruct H as [[e He]|[its [e [Hits He]]]]; congruence.
Qed.

Lemma has_any_data_insert_all : forall ds ps engine,
  has_any_data (insert_all ds ps engine) = false -> ds = [] /\ ps = [].
Proof.
  intros ds ps [drows prows]. unfold has_any_data, insert_all, append_rows, number. simpl.
  destruct prows; simpl; [|discriminate].
  destruct ps; simpl; [|discriminate].
  destruct drows; simpl; [|discriminate].
  destruct ds; simpl; [auto|discriminate].
Qed.

Lemma insert_all_nothing : forall engine, insert_all [] [] engine = engine.
Proof.
  intros [drows prows]. unfold insert_all, append_rows, number. simpl.
  now rewrite !app_nil_r.
Qed.

(** Running the guarded population again changes nothing: either the
    first run stored something and the guard holds, or there was nothing
    to store. *)
Lemma populate_guarded_twice : forall engine,
  has_any_data engine = false ->
  snd (populate (snd (populate engine true)) true) = snd (populate engine true).
Proof.
  intros engine Hempty. unfold populate_database.
  destruct pipeline as [[ds ps]|e]; simpl.
  - rewrite Hempty. simpl.
    destruct (has_any_data (insert_all ds ps engine)) eqn:E; simpl; [reflexivity|].
    apply has_any_data_insert_all in E. destruct E as [-> ->].
    now rewrite !insert_all_nothing.
  - reflexivity.
Qed.

End PopulateDatabase.

(** C4: on a store that holds data, [populate_database] with
    [only_if_empty] set leaves the store as it was: the same Dataset
    Description rows, Publication rows and link rows, however the call
    ends. *)
Theorem populate_only_if_empty_keeps_store :
  forall engine dataset_connectors publications_connectors limit_datasets limit_publications,
    has_any_data engine = true ->
    let after := snd (populate_database engine true dataset_connectors
                        publications_connectors limit_datasets limit_publications) in
    after = engine /\
    dataset_rows after = dataset_rows engine /\
    publication_rows after = publication_rows engine /\
    link_rows after = link_rows engine.
Proof.
  intros engine dcs pcs ld lp Hdata after.
  assert (E : after = engine).
  { unfold after, populate_database.
    destruct (fetch_and_link dcs pcs ld lp) as [[ds ps]|e]; simpl; [|reflexivity].
    now rewrite Hdata. }
  rewrite E. auto.
Qed.

(** C5: when a fetch of any connector fails, at the call of [fetch_all]
    or while its iterator is drained, [populate_database] raises and the
    store is the one it was given: nothing was persisted. *)
Theorem populate_fails_without_writing :
  forall engine only_if_empty dataset_connectors publications_connectors
         limit_datasets limit_publications,
    some_fetch_fails fetch_all dataset_connectors limit_datasets \/
    some_fetch_fails fetch_all_publications publications_connectors limit_publications ->
    exists e,
      populate_database engine only_if_empty dataset_connectors publications_connectors
                        limit_datasets limit_publications = (Raise e, engine).
Proof.
  intros engine only_if_empty dcs pcs ld lp H.
  destruct (pipeline_fails_on_failing_fetch dcs pcs ld lp H) as [e He].
  exists e. now apply populate_raise_keeps_store.
Qed.

(** C6: from a store without data, populating twice in a row with
    [only_if_empty] set and the same connectors leaves as many rows as
    populating once; the second call inserts nothing. *)
Theorem populate_twice_same_row_count :
  forall engine dataset_connectors publications_connectors limit_datasets limit_publications,
    has_any_data engine = false ->
    let once := snd (populate_database engine true dataset_connectors
                       publications_connectors limit_datasets limit_publications) in
    let twice := snd (populate_database once true dataset_connectors
                        publications_connectors limit_datasets limit_publications) in
    row_count twice = row_count once /\ twice = once.
Proof.
  intros engine dcs pcs ld lp Hempty once twice.
  assert (E : twice = once) by (apply populate_guarded_twice; exact Hempty).
  now rewrite E.
Qed.

Lemma populate_only_if_empty_keeps_store_witness :
  let stored := {| name := "anneal"; node := "openml"; node_specific_identifier := "1" |} in
  let engine := insert_all [stored] [] Database.empty in
  let fresh := {| name := "kr-vs-kp"; node := "openml"; node_specific_identifier := "3" |} in
  let openml := {| node_name := "OpenML";
                   fetch_all := fun _ => FetchYields [fresh] None;
                   fetch_single := fun _ => Unknown "Unknown dataset" |} in
  has_any_data engine = true /\
  snd (populate_database engine true (Some [openml]) None None None) = engine.
Proof.
  intros stored engine fresh openml.
  split; [reflexivity|].
  exact (proj1 (populate_only_if_empty_keeps_store
                  engine (Some [openml]) None None None eq_refl)).
Defined.

Lemma populate_fails_without_writing_witness :
  let fresh := {| name := "kr-vs-kp"; node := "openml"; node_specific_identifier := "3" |} in
  let broken := {| node_name := "OpenML";
                   fetch_all := fun _ => FetchYields [fresh] (Some (ConnectorError "timed out"));
                   fetch_single := fun _ => Failed "timed out" |} in
  exists e, populate_database Database.empty false (Some [broken]) None (Some 10%Z) None
            = (Raise e, Database.empty).
Proof.
  intros fresh broken.
  apply populate_fails_without_writing.
  left. exists [broken], broken. repeat split. now left.
Defined.

Lemma populate_twice_same_row_count_witness :
  let fresh := {| name := "kr-vs-kp"; node := "openml"; node_specific_identifier := "3" |} in
  let openml := {| node_name := "OpenML";
                   fetch_all := fun _ => FetchYields [fresh] None;
                   fetch_single := fun _ => Unknown "Unknown dataset" |} in
  let once := snd (populate_database Database.empty true (Some [openml]) None None None) in
  let twice := snd (populate_database once true (Some [openml]) None None None) in
  has_any_data Database.empty = false /\ row_count once = 1 /\ row_count twice = row_count once.
Proof.
  intros fresh openml once twice.
  split; [reflexivity|]. split; [reflexivity|].
  exact (proj1 (populate_twice_same_row_count
                  Database.empty (Some [openml]) None None None eq_refl)).
Defined.

(** C10: the linker is partial. A batch with an "openml" dataset whose
    identifier, an ASCII text, [int] rejects makes it raise [ValueError]
    (for instance the identifier "anneal-1"); when [int] accepts the
    identifier of every "openml" dataset of the batch, the linker returns,
    and so does [populate_database] once no fetch fails. *)
Theorem linker_raises_exactly_on_rejected_identifier :
  (exists msg,
     _link_datasets_with_publications
       [{| name := "anneal"; node := "openml"; node_specific_identifier := "anneal-1" |}] []
     = Raise (ValueError msg)) /\
  (forall ds ps d,
     In d ds -> node d = "openml" ->
     isascii (node_specific_identifier d) = true ->
     parse_int (node_specific_identifier d) = None ->
     exists literal, _link_datasets_with_publications ds ps = Raise (ValueError literal)) /\
  (forall ds ps,
     (forall d, In d ds -> node d = "openml" ->
                exists n, int (node_specific_identifier d) = Ok n) ->
     exists ps', _link_datasets_with_publications ds ps = Ok (ds, ps')) /\
  (forall engine only_if_empty dataset_connectors publications_connectors
          limit_datasets limit_publications,
     ~ some_fetch_fails fetch_all dataset_connectors limit_datasets ->
     ~ some_fetch_fails fetch_all_publications publications_connectors limit_publications ->
     (forall d, In d (fetched fetch_all dataset_connectors limit_datasets) ->
                node d = "openml" -> exists n, int (node_specific_identifier d) = Ok n) ->
     fst (populate_database engine only_if_empty dataset_connectors publications_connectors
                            limit_datasets limit_publications) = Ok tt).
Proof.
  assert (Hraise : forall ds ps d,
     In d ds -> node d = "openml" ->
     isascii (node_specific_identifier d) = true ->
     parse_int (node_specific_identifier d) = None ->
     exists literal, _link_datasets_with_publications ds ps = Raise (ValueError literal)).
  { intros ds ps d Hin Hnode _ Hparse.
    destruct (benchmark_datasets_raises ds d Hin Hnode Hparse) as [msg Hmsg].
    exists msg. unfold _link_datasets_with_publications. now rewrite Hmsg. }
  assert (Hreturn : forall ds ps,
     (forall d, In d ds -> node d = "openml" ->
                exists n, int (node_specific_identifier d) = Ok n) ->
     exists ps', _link_datasets_with_publications ds ps = Ok (ds, ps')).
  { intros ds ps H. destruct (benchmark_datasets_total ds H) as [kept Hk].
    unfold _link_datasets_with_publications. rewrite Hk. simpl. now eexists. }
  split; [|split; [exact Hraise|split; [exact Hreturn|]]].
  - eapply Hraise; [now left | reflexivity | reflexivity | reflexivity].
  - intros engine only_if_empty dcs pcs ld lp Hd Hp Hint.
    destruct (sound_fetches_materialise fetch_all dcs ld Hd) as [dits [Hdi Hdc]].
    destruct (sound_fetches_materialise fetch_all_publications pcs lp Hp) as [pits [Hpi Hpc]].
    destruct (Hreturn (fetched fetch_all dcs ld) (fetched fetch_all_publications pcs lp) Hint)
      as [ps' Hlink].
    unfold populate_database, fetch_and_link.
    rewrite Hdi, Hpi. simpl. rewrite Hdc, Hpc. simpl. rewrite Hlink.
    now destruct (only_if_empty && has_any_data engine).
Qed.

Lemma linker_raises_exactly_on_rejected_identifier_witness :
  let d1 := {| name := "anneal"; node := "openml"; node_specific_identifier := "1" |} in
  let d2 := {| name := "local"; node := "other_node"; node_specific_identifier := "anneal-1" |} in
  exists ps', _link_datasets_with_publications [d1; d2] [] = Ok ([d1; d2], ps').
Proof.
  intros d1 d2.
  apply (proj1 (proj2 (proj2 linker_raises_exactly_on_rejected_identifier))).
  intros d [<-|[<-|[]]] Hnode.
  - exists 1%Z. reflexivity.
  - discriminate.
Defined.

(** ** The store and the list route *)

Section StoreFacts.

Local Open Scope list_scope.

Lemma number_ids : forall (A : Type) (records : list A) first,
  map fst (number first records) = seq first (length records).
Proof.
  intros A records. unfold number.
  induction records as [|r rest IH]; intros first; simpl; [reflexivity|].
  now rewrite IH.
Qed.

Lemma append_rows_length : forall (A : Type) (table : list (nat * A)) records,
  length (append_rows table records) = length table + length records.
Proof.
  intros A table records. unfold append_rows, number.
  now rewrite length_app, length_combine, length_seq, Nat.min_id.
Qed.

(** Numbering from the row count on keeps a table's ids 1, 2, ..., n. *)
Lemma append_rows_ids : forall (A : Type) (table : list (nat * A)) records,
  map fst table = seq 1 (length table) ->
  map fst (append_rows table records) = seq 1 (length (append_rows table records)).
Proof.
  intros A table records H. rewrite append_rows_length, seq_app.
  unfold append_rows. now rewrite map_app, number_ids, H.
Qed.

(** The invariant of the store: in every table the ids are 1, 2, ..., n,
    in row order. *)
Lemma reachable_ids : forall s, reachable s ->
  map fst (dataset_rows s) = seq 1 (length (dataset_rows s)) /\
  map fst (publication_rows s) = seq 1 (length (publication_rows s)).
Proof.
  induction 1 as [|s ds ps _ [IHd IHp]]; simpl.
  - now split.
  - split; now apply append_rows_ids.
Qed.

Lemma list_datasets_ids : forall engine,
  map (member "id") (list_datasets engine)
  = map (fun n => Some (JInt (Z.of_nat n))) (map fst (dataset_rows engine)).
Proof.
  intros engine. unfold list_datasets. rewrite !map_map. now apply map_ext.
Qed.

End StoreFacts.

(** C9: on a store built by inserts that holds exactly three Dataset
    Description rows, the list route returns exactly three records, each
    with exactly the four keys id, name, node and node_specific_identifier,
    and the three ids are 1, 2 and 3, pairwise distinct. *)
Theorem list_datasets_three_rows :
  forall engine,
    reachable engine ->
    length (dataset_rows engine) = 3 ->
    let records := list_datasets engine in
    length records = 3 /\
    (forall ds, In ds records ->
                keys ds = ["id"; "name"; "node"; "node_specific_identifier"]) /\
    map (member "id") records = [Some (JInt 1); Some (JInt 2); Some (JInt 3)] /\
    NoDup (map (member "id") records).
Proof.
  intros engine Hreach Hlen records.
  assert (Hids : map (member "id") records = [Some (JInt 1); Some (JInt 2); Some (JInt 3)]).
  { unfold records. rewrite list_datasets_ids.
    destruct (reachable_ids engine Hreach) as [-> _]. now rewrite Hlen. }
  split; [|split; [|split]].
  - unfold records, list_datasets. now rewrite length_map.
  - intros ds Hin. unfold records, list_datasets in Hin.
    apply in_map_iff in Hin. destruct Hin as [row [<- _]]. reflexivity.
  - exact Hids.
  - rewrite Hids. repeat constructor; simpl; intuition discriminate.
Qed.

Lemma list_datasets_three_rows_witness :
  reachable TestGetDatasets.engine /\
  length (list_datasets TestGetDatasets.engine) = 3.
Proof.
  assert (R : reachable TestGetDatasets.engine) by (apply reachable_insert, reachable_empty).
  split; [exact R|].
  exact (proj1 (list_datasets_three_rows TestGetDatasets.engine R eq_refl)).
Defined.

(** The list route as modelled passes [tests/test_get_datasets.py]. *)
Lemma list_datasets_passes_test : TestGetDatasets.test_happy_path list_datasets.
Proof.
  unfold TestGetDatasets.test_happy_path, TestGetDatasets.same_set. simpl.
  repeat split; intros; simpl in *; intuition (subst; auto).
Qed.

(** ** The lookup route *)

Section LookupFacts.

Lemma prefix_app : forall s rest, prefix s (s ++ rest) = true.
Proof.
  induction s as [|c s IH]; intros rest; simpl.
  - now destruct rest.
  - destruct (ascii_dec c c); [apply IH|contradiction].
Qed.

Lemma append_assoc : forall s1 s2 s3 : string, (s1 ++ s2) ++ s3 = s1 ++ s2 ++ s3.
Proof.
  induction s1 as [|c s1 IH]; intros s2 s3; simpl; [reflexivity|]. now rewrite IH.
Qed.

Lemma contains_prefix : forall s text, prefix s text = true -> contains s text = true.
Proof. intros s [|c text] H; cbn [contains]; now rewrite H. Qed.

(** A text is found in whatever is built around it. *)
Lemma contains_app : forall before s rest, contains s (before ++ s ++ rest) = true.
Proof.
  induction before as [|c before IH]; intros s rest; simpl.
  - apply contains_prefix, prefix_app.
  - rewrite IH. apply orb_true_r.
Qed.


(** Section 4.4 read word for word has the property of section 8 and
    passes none of the three tests: it answers a stored pair without
    asking the registry, and asks it for a missing one. *)
Lemma get_dataset_fails_tests :
  answers_stored_pairs_from_store get_dataset /\
  ~ TestGetDatasetOpenml.test_happy_path get_dataset /\
  ~ TestGetDatasetOpenml.test_dataset_not_found_in_local_db get_dataset /\
  ~ TestGetDatasetOpenml.test_dataset_not_found_in_openml get_dataset.
Proof.
  split; [|split; [|split]].
  - intros engine registry node_key identifier row H. unfold get_dataset. now rewrite H.
  - intros H.
    destruct (H {| TestGetDatasetOpenml.info_name := "anneal";
                   TestGetDatasetOpenml.info_description := "";
                   TestGetDatasetOpenml.info_url := "";
                   TestGetDatasetOpenml.info_format := "ARFF" |}) as [Hfired _].
    exact Hfired.
  - intros [Hstatus _]. discriminate.
  - intros [Hfired _]. exact Hfired.
Qed.

End LookupFacts.




(* ================================================================== *)
(** ** More on the linker and on population *)

Section LinkerMore.

Local Open Scope list_scope.

(** What one publication becomes in a linker call that returns. *)
Lemma link_pointwise : forall ds ps ds' ps',
  _link_datasets_with_publications ds ps = Ok (ds', ps') ->
  ps' = map (fun p =>
               if title p =? benchmark_title
               then set_datasets p (filter is_benchmark_dataset ds)
               else if title p =? higgs_title
                    then set_datasets p (higgs_datasets ds)
                    else p) ps.
Proof.
  intros ds ps ds' ps' H. apply link_returns in H. destruct H as [_ ->].
  unfold assign_where. rewrite map_map. apply map_ext. intros p.
  destruct (title p =? higgs_title) eqn:Eh; simpl.
  - destruct (title p =? benchmark_title) eqn:Eb; [|reflexivity].
    apply String.eqb_eq in Eh, Eb. exfalso. apply titles_differ. congruence.
  - reflexivity.
Qed.

(** X7: the linker keeps the publications in place and touches only the
    two titles: the result has a publication for each one of the batch, in
    the same order and with the same title, and one with any other title
    comes back as it was, with the datasets it had. *)
Theorem link_keeps_other_publications : forall ds ps ds' ps',
  _link_datasets_with_publications ds ps = Ok (ds', ps') ->
  Forall2 (fun p p' =>
             title p' = title p /\
             (title p <> "AMLB: an AutoML Benchmark" ->
              title p <> "Searching for exotic particles in high-energy physics with deep learning" ->
              p' = p))
          ps ps'.
Proof.
  intros ds ps ds' ps' H. rewrite (link_pointwise _ _ _ _ H). clear H.
  induction ps as [|p ps IH]; simpl; constructor; [|exact IH].
  destruct (title p =? benchmark_title) eqn:Eb; [|destruct (title p =? higgs_title) eqn:Eh].
  - split; [reflexivity|]. apply String.eqb_eq in Eb. intros Hb _. contradiction.
  - split; [reflexivity|]. apply String.eqb_eq in Eh. intros _ Hh. contradiction.
  - now split.
Qed.

(** X8: linking is idempotent: linking the publications that a call
    returned, with the same datasets, returns them unchanged. *)
Theorem link_twice_is_link_once : forall ds ps ds' ps',
  _link_datasets_with_publications ds ps = Ok (ds', ps') ->
  _link_datasets_with_publications ds' ps' = Ok (ds', ps').
Proof.
  intros ds ps ds' ps' H.
  pose proof (link_pointwise _ _ _ _ H) as Hps.
  destruct (link_returns _ _ _ _ H) as [-> _].
  unfold _link_datasets_with_publications in *.
  destruct (benchmark_datasets ds) as [kept|e] eqn:Ek; simpl in *; [|discriminate].
  f_equal. f_equal.
  rewrite (benchmark_datasets_filter _ _ Ek).
  rewrite Hps at 2. rewrite Hps. unfold assign_where. rewrite !map_map.
  apply map_ext. intros p.
  destruct (title p =? benchmark_title) eqn:Eb;
    destruct (title p =? higgs_title) eqn:Eh;
    simpl; rewrite ?Eh; simpl; rewrite ?Eb; simpl; rewrite ?Eh; reflexivity.
Qed.

(** X9: under either title only "openml" datasets of the batch are
    linked: whatever datasets such a publication carried before, after the
    call each of its datasets is in the batch and has node "openml". *)
Theorem link_links_only_openml_of_batch : forall ds ps ds' ps' p d,
  _link_datasets_with_publications ds ps = Ok (ds', ps') ->
  In p ps' ->
  title p = "AMLB: an AutoML Benchmark" \/
  title p = "Searching for exotic particles in high-energy physics with deep learning" ->
  In d (datasets p) ->
  In d ds /\ node d = "openml".
Proof.
  intros ds ps ds' ps' p d H Hp Ht Hd.
  rewrite (link_pointwise _ _ _ _ H) in Hp.
  apply in_map_iff in Hp. destruct Hp as [q [Hq _]].
  destruct (title q =? benchmark_title) eqn:Eb; [|destruct (title q =? higgs_title) eqn:Eh].
  - subst p. simpl in Hd. apply filter_In in Hd. destruct Hd as [Hin Hb].
    unfold is_benchmark_dataset in Hb. apply andb_true_iff in Hb.
    split; [exact Hin|]. now apply String.eqb_eq.
  - subst p. simpl in Hd. apply filter_In in Hd. destruct Hd as [Hin Hb].
    apply andb_true_iff in Hb. split; [exact Hin|]. now apply String.eqb_eq.
  - subst p. apply String.eqb_neq in Eb, Eh. destruct Ht; contradiction.
Qed.

End LinkerMore.

Lemma link_keeps_other_publications_witness :
  let d := {| name := "local"; node := "other_node"; node_specific_identifier := "7" |} in
  let thesis := {| title := "A thesis"; datasets := [d] |} in
  let amlb := {| title := "AMLB: an AutoML Benchmark"; datasets := [d] |} in
  Forall2 (fun p p' =>
             title p' = title p /\
             (title p <> "AMLB: an AutoML Benchmark" ->
              title p <> "Searching for exotic particles in high-energy physics with deep learning" ->
              p' = p))
          [thesis; amlb] [thesis; set_datasets amlb []].
Proof.
  intros d thesis amlb.
  apply (link_keeps_other_publications [d] [thesis; amlb] [d]). reflexivity.
Defined.

Lemma link_twice_is_link_once_witness :
  let d := {| name := "kr-vs-kp"; node := "openml"; node_specific_identifier := "3" |} in
  let amlb := {| title := "AMLB: an AutoML Benchmark"; datasets := [] |} in
  _link_datasets_with_publications [d] [set_datasets amlb [d]]
  = Ok ([d], [set_datasets amlb [d]]).
Proof.
  intros d amlb.
  apply (link_twice_is_link_once [d] [amlb]). reflexivity.
Defined.

Lemma link_links_only_openml_of_batch_witness :
  let d := {| name := "Higgs"; node := "openml"; node_specific_identifier := "23512" |} in
  let stale := {| name := "old"; node := "other_node"; node_specific_identifier := "1" |} in
  let paper := {| title := higgs_title; datasets := [stale] |} in
  In d [d] /\ node d = "openml".
Proof.
  intros d stale paper.
  apply (link_links_only_openml_of_batch [d] [paper] [d] [set_datasets paper [d]]
           (set_datasets paper [d]) d).
  - reflexivity.
  - now left.
  - now right.
  - now left.
Defined.

Section PopulateMore.

Local Open Scope list_scope.

Variables (dataset_connectors : option (list DatasetConnector))
          (publications_connectors : option (list PublicationConnector))
          (limit_datasets limit_publications : option Z).

#[local] Abbreviation fetched_datasets :=
  (fetched fetch_all dataset_connectors limit_datasets).
#[local] Abbreviation fetched_publications :=
  (fetched fetch_all_publications publications_connectors limit_publications).
#[local] Abbreviation populate' engine only_if_empty :=
  (populate_database engine only_if_empty dataset_connectors publications_connectors
                     limit_datasets limit_publications).

Hypothesis datasets_arrive :
  ~ some_fetch_fails fetch_all dataset_connectors limit_datasets.
Hypothesis publications_arrive :
  ~ some_fetch_fails fetch_all_publications publications_connectors limit_publications.

(** With every fetch sound, what is linked is the two batches. *)
Lemma fetch_and_link_batches :
  fetch_and_link dataset_connectors publications_connectors limit_datasets limit_publications
  = _link_datasets_with_publications fetched_datasets fetched_publications.
Proof.
  destruct (sound_fetches_materialise fetch_all _ _ datasets_arrive) as [dits [Hd Hdc]].
  destruct (sound_fetches_materialise fetch_all_publications _ _ publications_arrive)
    as [pits [Hp Hpc]].
  unfold fetch_and_link. rewrite Hd, Hp. simpl. now rewrite Hdc, Hpc.
Qed.

(** X10: when no fetch fails, [populate_database] raises [ValueError]
    and stores nothing as soon as one fetched "openml" dataset has an
    identifier, an ASCII text, that [int] rejects: with or without
    [only_if_empty], on any store, and whether or not a publication was
    fetched that the benchmark list would be linked to. *)
Theorem populate_raises_on_rejected_identifier : forall engine only_if_empty d,
  In d fetched_datasets ->
  node d = "openml" ->
  isascii (node_specific_identifier d) = true ->
  parse_int (node_specific_identifier d) = None ->
  exists literal, populate' engine only_if_empty = (Raise (ValueError literal), engine).
Proof.
  intros engine only_if_empty d Hin Hnode _ Hparse.
  destruct (benchmark_datasets_raises _ _ Hin Hnode Hparse) as [msg Hmsg].
  exists msg. unfold populate_database. rewrite fetch_and_link_batches.
  unfold _link_datasets_with_publications. now rewrite Hmsg.
Qed.

Hypothesis identifiers_parse :
  forall d, In d fetched_datasets -> node d = "openml" ->
            exists n, int (node_specific_identifier d) = Ok n.






(** X13: when the connectors yield nothing, the call returns and the
    store is the one it was given, guard or no guard. *)
Theorem populate_nothing_fetched : forall engine only_if_empty,
  fetched_datasets = [] ->
  fetched_publications = [] ->
  populate' engine only_if_empty = (Ok tt, engine).
Proof.
  intros engine only_if_empty Hd Hp.
  unfold populate_database. rewrite fetch_and_link_batches, Hd, Hp. simpl.
  rewrite insert_all_nothing. now destruct (only_if_empty && has_any_data engine).
Qed.

End PopulateMore.

Section PopulateAlways.

Local Open Scope list_scope.

Lemma call_all_yields : forall (A : Type) (fs : list (Fetch A)),
  (forall f, In f fs -> exists items raises, f = FetchYields items raises) ->
  exists its, call_all fs = Ok its.
Proof.
  induction fs as [|f fs IH]; intros H; simpl.
  - now eexists.
  - destruct (H f (or_introl eq_refl)) as [items [raises ->]].
    destruct IH as [its Hits]; [intros; apply H; now right|].
    rewrite Hits. simpl. now eexists.
Qed.

Lemma call_all_first_raise : forall (A : Type) (before after : list (Fetch A)) e,
  (forall f, In f before -> exists items raises, f = FetchYields items raises) ->
  call_all (before ++ FetchRaises e :: after) = Raise e.
Proof.
  induction before as [|f before IH]; intros after e H; simpl; [reflexivity|].
  destruct (H f (or_introl eq_refl)) as [items [raises ->]].
  rewrite IH; [reflexivity|]. intros; apply H; now right.
Qed.

(** X15: every [fetch_all] of both kinds is called before any iterator
    is drained. When the calls of the dataset connectors all return and a
    publication connector is the first of its list whose call raises,
    [populate_database] raises that exception, even if a dataset iterator
    would have raised while drained, and the store is untouched. *)
Theorem populate_calls_before_draining :
  forall engine only_if_empty dataset_connectors before c after e
         limit_datasets limit_publications,
    (forall cs d, dataset_connectors = Some cs -> In d cs ->
                  exists items raises, fetch_all d limit_datasets = FetchYields items raises) ->
    (forall p, In p before ->
               exists items raises,
                 fetch_all_publications p limit_publications = FetchYields items raises) ->
    fetch_all_publications c limit_publications = FetchRaises e ->
    populate_database engine only_if_empty dataset_connectors
                      (Some (before ++ c :: after)) limit_datasets limit_publications
    = (Raise e, engine).
Proof.
  intros engine b dcs before c after e ld lp Hd Hbefore Hc.
  unfold populate_database, fetch_and_link.
  assert (Hdi : exists dits, iterable fetch_all dcs ld = Ok dits).
  { destruct dcs as [cs|]; simpl; [|now eexists].
    apply call_all_yields. intros f Hin. apply in_map_iff in Hin.
    destruct Hin as [d [<- Hin]]. now apply (Hd cs). }
  destruct Hdi as [dits ->]. simpl.
  rewrite map_app. simpl. rewrite Hc.
  rewrite call_all_first_raise; [reflexivity|].
  intros f Hin. apply in_map_iff in Hin. destruct Hin as [p [<- Hin]]. now apply Hbefore.
Qed.

End PopulateAlways.

Section PopulateWitnesses.

Local Open Scope list_scope.

Ltac sound_fetch :=
  intros [cs [c [E [Hin Hf]]]]; inversion E; subst;
  repeat (destruct Hin as [<-|Hin]; [exact Hf|]); exact Hin.

Lemma populate_raises_on_rejected_identifier_witness :
  let local := {| name := "anneal"; node := "openml"; node_specific_identifier := "anneal-1" |} in
  let openml := {| node_name := "OpenML";
                   fetch_all := fun _ => FetchYields [local] None;
                   fetch_single := fun _ => Unknown "Unknown dataset" |} in
  exists msg,
    populate_database Database.empty false (Some [openml]) None None None
    = (Raise (ValueError msg), Database.empty).
Proof.
  intros local openml.
  apply (populate_raises_on_rejected_identifier (Some [openml]) None None None)
    with (d := local).
  - sound_fetch.
  - sound_fetch.
  - now left.
  - reflexivity.
  - reflexivity.
  - reflexivity.
Defined.



Lemma populate_nothing_fetched_witness :
  let stored := {| name := "anneal"; node := "openml"; node_specific_identifier := "1" |} in
  let engine := insert_all [stored] [] Database.empty in
  populate_database engine false None (Some []) None None = (Ok tt, engine).
Proof.
  intros stored engine.
  apply (populate_nothing_fetched None (Some []) None None).
  - sound_fetch.
  - sound_fetch.
  - reflexivity.
  - reflexivity.
Defined.

Lemma populate_calls_before_draining_witness :
  let d1 := {| name := "kr-vs-kp"; node := "openml"; node_specific_identifier := "3" |} in
  let datasets_break := {| node_name := "OpenML";
                           fetch_all := fun _ => FetchYields [d1] (Some (ConnectorError "reset"));
                           fetch_single := fun _ => Failed "reset" |} in
  let papers_refuse := {| fetch_all_publications :=
                            fun _ => FetchRaises (ConnectorError "refused") |} in
  populate_database Database.empty true (Some [datasets_break]) (Some [papers_refuse])
                    None None
  = (Raise (ConnectorError "refused"), Database.empty).
Proof.
  intros d1 datasets_break papers_refuse.
  apply (populate_calls_before_draining Database.empty true (Some [datasets_break])
           [] papers_refuse []).
  - intros cs d E Hin. inversion E; subst. destruct Hin as [<-|[]]. now eexists _, _.
  - intros p [].
  - reflexivity.
Defined.

End PopulateWitnesses.

(* ================================================================== *)
(** ** Connecting *)

Section ConnectFacts.

Import Connect.
Local Open Scope list_scope.

Lemma rsplit1_none : forall sep s,
  rsplit1 sep s = None -> forall x y, s <> (x ++ String sep y)%string.
Proof.
  induction s as [|c rest IH]; simpl; intros H x y E.
  - destruct x; discriminate.
  - destruct (rsplit1 sep rest) as [[a b]|]; [discriminate|].
    destruct (Ascii.eqb c sep) eqn:Ec; [discriminate|].
    destruct x as [|c' x]; simpl in E; inversion E; subst.
    + now rewrite Ascii.eqb_refl in Ec.
    + now apply (IH eq_refl x y).
Qed.

(** The two parts put back around the separator give the text, and the
    second part holds no separator: the cut is at the last one. *)
Lemma rsplit1_some : forall sep s before after,
  rsplit1 sep s = Some (before, after) ->
  s = (before ++ String sep after)%string /\
  forall x y, after <> (x ++ String sep y)%string.
Proof.
  induction s as [|c rest IH]; simpl; intros before after H; [discriminate|].
  destruct (rsplit1 sep rest) as [[a b]|] eqn:E.
  - inversion H; subst. destruct (IH a after eq_refl) as [-> Hlast]. now split.
  - destruct (Ascii.eqb c sep) eqn:Ec; [|discriminate].
    apply Ascii.eqb_eq in Ec. inversion H; subst. split; [reflexivity|].
    now apply rsplit1_none.
Qed.

Context {Engine Server : Type} (backend : Backend Engine Server).

Ltac answer_all H :=
  repeat match type of H with
         | context [perform backend ?ev ?s] =>
             let E := fresh "E" in
             destruct (perform backend ev s) as [[[|? ?]|?] ?] eqn:E; simpl in H
         end.

Ltac replay :=
  simpl;
  repeat match goal with
         | E : perform backend ?ev ?s = _ |- context [perform backend ?ev ?s] =>
             rewrite E; simpl
         end.

(** Every run of the [with] block, however it ends: the log is a prefix
    of the full script, the last event of a failed run is the one that
    raised, and the schema is created only after [SHOW TABLES] gave no
    row. *)
Lemma with_connection_runs : forall database create_if_not_exists delete_first s out s' log,
  with_connection backend database create_if_not_exists delete_first s [] = (out, s', log) ->
  s' = state_after backend log s /\
  (forall ev, In ev log ->
     (delete_first = true /\ ev = drop_database database) \/
     (delete_first || create_if_not_exists = true /\ ev = create_database database) \/
     ev = use_database database \/ ev = show_tables \/ ev = CreateAll \/ ev = Commit) /\
  (In CreateAll log ->
     fst (perform backend show_tables
            (state_after backend
               (opening database create_if_not_exists delete_first) s)) = Returned []) /\
  match out with
  | Returned _ =>
      exists rows,
        fst (perform backend show_tables
               (state_after backend
                  (opening database create_if_not_exists delete_first) s)) = Returned rows /\
        log = opening database create_if_not_exists delete_first
              ++ [show_tables]
              ++ (match rows with [] => [CreateAll] | _ => [] end)
              ++ [Commit]
  | Raised e =>
      exists earlier ev,
        log = earlier ++ [ev] /\
        fst (perform backend ev (state_after backend earlier s)) = Raised e /\
        ~ In Commit earlier
  end.
Proof.
  intros database c d s out s' log H.
  unfold with_connection, when, and_then, issue, ret, opening in *.
  destruct d, c; simpl in H; answer_all H; inversion H; subst; clear H;
    (split; [unfold state_after; replay; reflexivity|]);
    (split; [simpl; intuition (subst; auto 10)|]);
    (split; [intros Hin; unfold state_after; replay; try reflexivity;
             exfalso; simpl in Hin;
             unfold drop_database, create_database, use_database, show_tables in Hin;
             intuition discriminate|]);
    unfold state_after;
    try (eexists; split; [replay; reflexivity|reflexivity]).
  all: match goal with
       | |- exists earlier ev, ?l = _ /\ _ =>
           let l' := eval simpl in l in
           match l' with
           | [?e1] => exists [], e1
           | [?e1; ?e2] => exists [e1], e2
           | [?e1; ?e2; ?e3] => exists [e1; e2], e3
           | [?e1; ?e2; ?e3; ?e4] => exists [e1; e2; e3], e4
           | [?e1; ?e2; ?e3; ?e4; ?e5] => exists [e1; e2; e3; e4], e5
           | [?e1; ?e2; ?e3; ?e4; ?e5; ?e6] => exists [e1; e2; e3; e4; e5], e6
           end
       end.
  all: split; [reflexivity|]; split; [replay; reflexivity|];
       unfold drop_database, create_database, use_database, show_tables; simpl;
       intuition discriminate.
Qed.

End ConnectFacts.

Section ConnectToDatabase.

Import Connect.
Local Open Scope list_scope.

Context {Engine Server : Type} (backend : Backend Engine Server).

(** A text without separator after the last separator is where
    [rsplit] cuts. *)
Lemma rsplit1_join : forall sep before after,
  (forall x y, after <> (x ++ String sep y)%string) ->
  rsplit1 sep (before ++ String sep after) = Some (before, after).
Proof.
  intros sep before after Hlast.
  assert (Hnone : rsplit1 sep after = None).
  { destruct (rsplit1 sep after) as [[x y]|] eqn:E; [|reflexivity].
    apply rsplit1_some in E. destruct E as [E _]. now apply Hlast in E. }
  induction before as [|c before IH]; simpl.
  - now rewrite Hnone, Ascii.eqb_refl.
  - now rewrite IH.
Qed.

(** A call either ends before anything is sent, or runs the [with]
    block for the two parts of the URL. *)
Lemma connect_to_database_runs : forall url c d s out s' log,
  connect_to_database backend url c d s = (out, s', log) ->
  (log = [] /\ s' = s /\ exists e, out = Raised e) \/
  (exists server database engine out',
     rsplit1 "/" url = Some (server, database) /\
     create_engine backend server = Returned engine /\
     with_connection backend database c d s [] = (out', s', log) /\
     out = match out' with Returned _ => Returned engine | Raised e => Raised e end).
Proof.
  intros url c d s out s' log H. unfold connect_to_database in H.
  destruct (rsplit1 "/" url) as [[server database]|] eqn:Eu.
  - destruct (create_engine backend server) as [engine|e] eqn:Ee.
    + destruct (connect backend engine s) as [e|] eqn:Ec.
      * inversion H; subst. left. repeat split. now exists e.
      * destruct (with_connection backend database c d s []) as [[out' s1] log1] eqn:Ew.
        right. exists server, database, engine, out'.
        destruct out'; inversion H; subst; repeat split; trivial.
    + inversion H; subst. left. repeat split. now exists e.
  - inversion H; subst. left. repeat split. now eexists.
Qed.

(** X1: a URL without "/" cannot be unpacked into server and database:
    the call raises before an engine is made, and sends nothing. *)
Theorem connect_url_without_slash_raises : forall url c d s,
  (forall x y, url <> (x ++ "/" ++ y)%string) ->
  connect_to_database backend url c d s = (Raised NotEnoughValues, s, []).
Proof.
  intros url c d s Hno. unfold connect_to_database.
  destruct (rsplit1 "/" url) as [[server database]|] eqn:E; [|reflexivity].
  apply rsplit1_some in E. destruct E as [E _]. now apply Hno in E.
Qed.

(** X2: every statement the call sends is one of the four of lines
    36-41, for the database named after the last "/" of the URL (the name
    itself holds no "/"): DROP only with [delete_first], CREATE only with
    [delete_first] or [create_if_not_exists]. *)
Theorem connect_sends_only_its_statements : forall url c d s out s' log statement,
  connect_to_database backend url c d s = (out, s', log) ->
  In (Execute statement) log ->
  exists server database,
    url = (server ++ "/" ++ database)%string /\
    (forall x y, database <> (x ++ "/" ++ y)%string) /\
    ((d = true /\ statement = ("DROP DATABASE IF EXISTS " ++ database)%string) \/
     (d || c = true /\ statement = ("CREATE DATABASE IF NOT EXISTS " ++ database)%string) \/
     statement = ("USE " ++ database)%string \/
     statement = "SHOW TABLES"%string).
Proof.
  intros url c d s out s' log statement H Hin.
  destruct (connect_to_database_runs _ _ _ _ _ _ _ H)
    as [[-> _]|[server [database [engine [out' [Hu [_ [Hw _]]]]]]]]; [contradiction|].
  apply rsplit1_some in Hu. destruct Hu as [Hu Hlast].
  exists server, database. split; [exact Hu|]. split; [exact Hlast|].
  destruct (with_connection_runs _ _ _ _ _ _ _ _ Hw) as [_ [Hev _]].
  destruct (Hev _ Hin) as [[Hd E]|[[Hc E]|[E|[E|[E|E]]]]];
    inversion E; subst; auto.
Qed.

Lemma plain_name_lacks : forall c database,
  is_word c = false -> plain_name database = true ->
  (forall x y, database <> (x ++ String c y)%string) /\
  contains (String c "") database = false.
Proof.
  intros c database Hc. unfold plain_name.
  induction database as [|a rest IH]; simpl; intros H.
  - split; [intros [|? ?] y; discriminate | reflexivity].
  - apply andb_true_iff in H. destruct H as [Ha Hrest].
    destruct (IH Hrest) as [Hsplit Hcontains]. split.
    + intros [|a' x] y E; simpl in E; inversion E; subst.
      * congruence.
      * now apply (Hsplit x y).
    + destruct (ascii_dec c a) as [->|_]; [congruence|]. exact Hcontains.
Qed.

(** X3: for a database name made of letters, digits and underscores, a
    call without [delete_first] sends no DROP statement: every statement
    it sends begins with another word and holds no ";" after which a
    second statement could follow. *)
Theorem connect_never_drops_without_delete_first :
  forall server database c s out s' log statement,
    plain_name database = true ->
    connect_to_database backend (server ++ "/" ++ database) c false s = (out, s', log) ->
    In (Execute statement) log ->
    prefix "DROP" statement = false /\ contains ";" statement = false.
Proof.
  intros server database c s out s' log statement Hplain H Hin.
  destruct (plain_name_lacks "/"%char database eq_refl Hplain) as [Hlast _].
  destruct (plain_name_lacks ";"%char database eq_refl Hplain) as [_ Hsemi].
  destruct (connect_to_database_runs _ _ _ _ _ _ _ H)
    as [[-> _]|[server' [database' [engine [out' [Hu [_ [Hw _]]]]]]]]; [contradiction|].
  change (server ++ "/" ++ database)%string
    with (server ++ String "/" database)%string in Hu.
  rewrite (rsplit1_join "/"%char server database Hlast) in Hu.
  inversion Hu; subst server' database'.
  destruct (with_connection_runs _ _ _ _ _ _ _ _ Hw) as [_ [Hev _]].
  destruct (Hev _ Hin) as [[Hd _]|[[_ E]|[E|[E|[E|E]]]]];
    try discriminate; inversion E; split; try reflexivity; simpl; exact Hsemi.
Qed.

(** X4: a call that returns has sent the whole script, in order: DROP
    (with [delete_first]), CREATE (with either flag), USE, SHOW TABLES, the
    creation of the schema exactly when SHOW TABLES gave no row, and the
    commit. The engine it returns was made from the URL without the
    database name, and the server is the one these events leave. *)
Theorem connect_returns_after_whole_script :
  forall server database c d s engine s' log,
    (forall x y, database <> (x ++ "/" ++ y)%string) ->
    connect_to_database backend (server ++ "/" ++ database) c d s
    = (Returned engine, s', log) ->
    create_engine backend server = Returned engine /\
    s' = state_after backend log s /\
    exists rows,
      fst (perform backend show_tables (state_after backend (opening database c d) s))
      = Returned rows /\
      log = opening database c d ++ [show_tables]
            ++ (match rows with [] => [CreateAll] | _ => [] end) ++ [Commit].
Proof.
  intros server database c d s engine s' log Hlast H.
  destruct (connect_to_database_runs _ _ _ _ _ _ _ H)
    as [[_ [_ [e He]]]|[server' [database' [engine' [out' [Hu [He [Hw Hout]]]]]]]];
    [discriminate|].
  change (server ++ "/" ++ database)%string
    with (server ++ String "/" database)%string in Hu.
  rewrite (rsplit1_join "/"%char server database Hlast) in Hu.
  inversion Hu; subst server' database'.
  destruct out' as [u|e]; [|discriminate]. inversion Hout; subst engine'.
  destruct (with_connection_runs _ _ _ _ _ _ _ _ Hw) as [Hs [_ [_ Hlog]]].
  auto.
Qed.

(** X5: the schema is created only when SHOW TABLES, asked after the
    opening statements, gave no row: a database that shows a table is
    left with the tables it has. *)
Theorem connect_creates_schema_only_without_tables :
  forall server database c d s out s' log,
    (forall x y, database <> (x ++ "/" ++ y)%string) ->
    connect_to_database backend (server ++ "/" ++ database) c d s = (out, s', log) ->
    In CreateAll log ->
    fst (perform backend show_tables (state_after backend (opening database c d) s))
    = Returned [].
Proof.
  intros server database c d s out s' log Hlast H Hin.
  destruct (connect_to_database_runs _ _ _ _ _ _ _ H)
    as [[-> _]|[server' [database' [engine' [out' [Hu [_ [Hw _]]]]]]]]; [contradiction|].
  change (server ++ "/" ++ database)%string
    with (server ++ String "/" database)%string in Hu.
  rewrite (rsplit1_join "/"%char server database Hlast) in Hu.
  inversion Hu; subst server' database'.
  destruct (with_connection_runs _ _ _ _ _ _ _ _ Hw) as [_ [_ [Hc _]]]. auto.
Qed.


End ConnectToDatabase.

Section ConnectWitnesses.

Import Connect.
Local Open Scope list_scope.

Lemma aiod_has_no_slash : forall x y, "aiod"%string <> (x ++ "/" ++ y)%string.
Proof. exact (rsplit1_none "/"%char "aiod" eq_refl). Qed.

Lemma connect_url_without_slash_raises_witness :
  connect_to_database toy "aiod" true false {| toy_tables := None; toy_in_use := false |}
  = (Raised NotEnoughValues, {| toy_tables := None; toy_in_use := false |}, []).
Proof.
  apply connect_url_without_slash_raises. exact (rsplit1_none "/"%char "aiod" eq_refl).
Defined.

Lemma connect_sends_only_its_statements_witness :
  exists server database,
    default_url = (server ++ "/" ++ database)%string /\
    (forall x y, database <> (x ++ "/" ++ y)%string) /\
    ((false = true /\ "USE aiod"%string = ("DROP DATABASE IF EXISTS " ++ database)%string) \/
     (false || true = true
      /\ "USE aiod"%string = ("CREATE DATABASE IF NOT EXISTS " ++ database)%string) \/
     "USE aiod"%string = ("USE " ++ database)%string \/
     "USE aiod"%string = "SHOW TABLES"%string).
Proof.
  eapply (connect_sends_only_its_statements toy default_url true false
            {| toy_tables := None; toy_in_use := false |}).
  - reflexivity.
  - simpl. right. left. reflexivity.
Defined.

Lemma connect_never_drops_without_delete_first_witness :
  plain_name "aiod" = true /\
  In (Execute "CREATE DATABASE IF NOT EXISTS aiod")
     (snd (connect_to_database toy default_url true false
             {| toy_tables := None; toy_in_use := false |})) /\
  prefix "DROP" "CREATE DATABASE IF NOT EXISTS aiod" = false /\
  contains ";" "CREATE DATABASE IF NOT EXISTS aiod" = false.
Proof.
  split; [reflexivity|]. split; [simpl; now left|].
  eapply (connect_never_drops_without_delete_first toy
            "mysql://root:ok@127.0.0.1:3307" "aiod" true
            {| toy_tables := None; toy_in_use := false |}).
  - reflexivity.
  - reflexivity.
  - simpl. left. reflexivity.
Defined.

(** A name that is not plain is sent as written: here the text after the
    last "/" carries a second statement. *)
Example connect_pastes_the_name :
  snd (connect_to_database toy "mysql://127.0.0.1:3307/aiod; DROP DATABASE prod" true false
         {| toy_tables := None; toy_in_use := false |})
  = [Execute "CREATE DATABASE IF NOT EXISTS aiod; DROP DATABASE prod"].
Proof. reflexivity. Qed.

Lemma connect_returns_after_whole_script_witness :
  let before := {| toy_tables := Some ["dataset"]; toy_in_use := false |} in
  let answer := connect_to_database toy default_url false true before in
  answer = (Returned "mysql://root:ok@127.0.0.1:3307"%string,
            {| toy_tables := Some ["dataset"; "publication"; "link"]; toy_in_use := true |},
            [drop_database "aiod"; create_database "aiod"; use_database "aiod";
             show_tables; CreateAll; Commit])
  /\ snd (fst answer) = state_after toy (snd answer) before.
Proof.
  intros before answer. split; [reflexivity|].
  exact (proj1 (proj2 (connect_returns_after_whole_script toy
                         "mysql://root:ok@127.0.0.1:3307" "aiod" false true before
                         _ _ _ aiod_has_no_slash eq_refl))).
Defined.

Lemma connect_creates_schema_only_without_tables_witness :
  fst (toy_perform show_tables
         (state_after toy (opening "aiod" true false)
                      {| toy_tables := None; toy_in_use := false |}))
  = Returned [].
Proof.
  eapply (connect_creates_schema_only_without_tables toy
            "mysql://root:ok@127.0.0.1:3307" "aiod" true false
            {| toy_tables := None; toy_in_use := false |} _ _ _ aiod_has_no_slash).
  - reflexivity.
  - simpl. auto.
Defined.


End ConnectWitnesses.
